(** * qutebrowser.commands.keys: the command key parser

    A shallow embedding of [CommandKeyParser] (qutebrowser/commands/keys.py)
    and the properties of its configuration reload, its dispatch policy and
    its start-character interception.

    Python strings are modelled by [string]; a character stands for a code
    point below 256.  The two binding dictionaries are finite maps with
    string keys.  Methods run in a small monad that threads the parser
    object, records the calls made on the collaborators (logging, the
    [set_cmd_text] signal, the command parser) and propagates exceptions. *)

From stdpp Require Import gmap strings list fin_maps.
From Stdlib Require Import Ascii ZArith.

Local Open Scope string_scope.

(** ** Python string operations used by the module *)

Module PyStr.

(** [str.startswith(prefix)]. *)
Definition startswith (prefix s : string) : bool := String.prefix prefix s.

(** [str.endswith(suffix)]: [s] itself or one of its tails is [suffix]. *)
Fixpoint endswith (suffix s : string) : bool :=
  String.eqb s suffix ||
  match s with
  | EmptyString => false
  | String _ s' => endswith suffix s'
  end.

(** Removal of the leading characters that satisfy [p]. *)
Fixpoint lstrip_by (p : ascii -> bool) (s : string) : string :=
  match s with
  | EmptyString => EmptyString
  | String c s' => if p c then lstrip_by p s' else s
  end.

(** Removal of the trailing characters that satisfy [p]. *)
Fixpoint rstrip_by (p : ascii -> bool) (s : string) : string :=
  match s with
  | EmptyString => EmptyString
  | String c s' =>
      match rstrip_by p s' with
      | EmptyString => if p c then EmptyString else String c EmptyString
      | r => String c r
      end
  end.

Definition strip_by (p : ascii -> bool) (s : string) : string :=
  rstrip_by p (lstrip_by p s).

(** Membership of a character in the argument of [str.strip(chars)]. *)
Definition char_in (chars : string) (c : ascii) : bool :=
  existsb (Ascii.eqb c) (String.list_ascii_of_string chars).

(** [str.strip(chars)]: every leading and trailing character that occurs in
    [chars] is removed. *)
Definition strip_chars (chars s : string) : string := strip_by (char_in chars) s.

(** [str.isspace] on one character, for code points below 256: TAB to CR,
    FS to US, the space, NEL and the no-break space. *)
Definition isspace (c : ascii) : bool :=
  let n := nat_of_ascii c in
  ((9 <=? n)%nat && (n <=? 13)%nat) || ((28 <=? n)%nat && (n <=? 32)%nat)
  || (n =? 133)%nat || (n =? 160)%nat.

(** [str.strip()]: leading and trailing whitespace is removed. *)
Definition strip (s : string) : string := strip_by isspace s.

(** The characters of a string as one-character strings, which is what
    iterating over a Python string yields. *)
Definition chars (s : string) : list string :=
  map (fun c => String c EmptyString) (String.list_ascii_of_string s).

(** [n] copies of the character [c]. *)
Fixpoint replicate_char (n : nat) (c : ascii) : string :=
  match n with
  | O => EmptyString
  | S n' => String c (replicate_char n' c)
  end.

(** The last character of a string, if any. *)
Fixpoint last_char (s : string) : option ascii :=
  match s with
  | EmptyString => None
  | String c EmptyString => Some c
  | String _ s' => last_char s'
  end.

(** The first character of a string, if any. *)
Definition first_char (s : string) : option ascii := String.get 0 s.

End PyStr.

(** ** Data *)

(** [STARTCHARS]: possible characters for starting a command line input. *)
Definition STARTCHARS : string := ":/?".

(** A key press event, reduced to what [QKeyEvent] exposes to the parser. *)
Record KeyEvent := mkKeyEvent {
  key : Z;
  modifiers : Z;
  text : string
}.

(** The attributes of the parser object.  [_keystring], [_bindings] and
    [_modifier_bindings] are the attributes of the [KeyParser] base class
    that this module reads and writes; [_base] stands for whatever else the
    base class keeps (pending count, timers, ...). *)
Record KeyParser (Base : Type) := mkKeyParser {
  _keystring : string;
  _bindings : gmap string string;
  _modifier_bindings : gmap string string;
  _base : Base
}.
Arguments mkKeyParser {Base} _ _ _ _.
Arguments _keystring {Base} _.
Arguments _bindings {Base} _.
Arguments _modifier_bindings {Base} _.
Arguments _base {Base} _.

(** The exceptions the module distinguishes: the two raised by the command
    parser that [_run_or_fill] handles, and any other one. *)
Inductive exn :=
| NoSuchCommandError
| ArgumentCountError
| OtherError (name : string).

(** How a call ends: it returns a value or raises. *)
Inductive result (A : Type) :=
| Return (a : A)
| Raise (e : exn).
Arguments Return {A} _.
Arguments Raise {A} _.

(** The calls the parser makes on its collaborators, in the order made. *)
Inductive event :=
| LogDebug (msg : string)
| LogWarn (msg : string)
| SetCmdText (txt : string)
| CommandRun (cmdstr : string) (count : option Z) (ignore_exc : bool).

(** The outcome of a method call: how it ended, the parser object after it,
    and the calls it made. *)
Record outcome (Base A : Type) := mkOutcome {
  ended : result A;
  self_after : KeyParser Base;
  trace : list event
}.
Arguments mkOutcome {Base A} _ _ _.
Arguments ended {Base A} _.
Arguments self_after {Base A} _.
Arguments trace {Base A} _.

(** ** The method monad *)

Definition M (Base A : Type) : Type := KeyParser Base -> outcome Base A.

Definition ret {Base A} (a : A) : M Base A :=
  fun self => mkOutcome (Return a) self [].

Definition bind {Base A B} (m : M Base A) (k : A -> M Base B) : M Base B :=
  fun self =>
    let o := m self in
    match ended o with
    | Return a =>
        let o' := k a (self_after o) in
        mkOutcome (ended o') (self_after o') (trace o ++ trace o')
    | Raise e => mkOutcome (Raise e) (self_after o) (trace o)
    end.

(** The monad operations in stdpp's classes, for its [x ← m; k] and
    [m ;; k] notations. *)
#[global] Instance M_ret {Base} : MRet (M Base) := fun A a => ret a.
#[global] Instance M_bind {Base} : MBind (M Base) := fun A B k m => bind m k.

(** A call on a collaborator that returns nothing. *)
Definition call {Base} (ev : event) : M Base unit :=
  fun self => mkOutcome (Return tt) self [ev].

(** Reading and writing the attributes of [self]. *)
Definition get_self {Base} : M Base (KeyParser Base) :=
  fun self => mkOutcome (Return self) self [].

Definition set_binding {Base} (k cmd : string) : M Base unit :=
  fun self =>
    mkOutcome (Return tt)
      (mkKeyParser (_keystring self) (<[k := cmd]> (_bindings self))
         (_modifier_bindings self) (_base self)) [].

Definition set_modifier_binding {Base} (k cmd : string) : M Base unit :=
  fun self =>
    mkOutcome (Return tt)
      (mkKeyParser (_keystring self) (_bindings self)
         (<[k := cmd]> (_modifier_bindings self)) (_base self)) [].

(** [try: m except ...: handler]: [handler e] is [Some h] when a clause
    catches [e], and then [h] runs in the state the body left. *)
Definition try_except {Base A} (m : M Base A) (handler : exn -> option (M Base A))
  : M Base A :=
  fun self =>
    let o := m self in
    match ended o with
    | Return a => o
    | Raise e =>
        match handler e with
        | Some h =>
            let o' := h (self_after o) in
            mkOutcome (ended o') (self_after o') (trace o ++ trace o')
        | None => o
        end
    end.

(** [for x in l: body x]. *)
Fixpoint for_each {Base X} (l : list X) (body : X -> M Base unit) : M Base unit :=
  match l with
  | [] => ret tt
  | x :: l' => body x ;; for_each l' body
  end.

(** ** CommandKeyParser *)

Section CommandKeyParser.

Context {Base : Type}.

(** [KeyParser._normalize_keystr], a method of the base class. *)
Variable _normalize_keystr : string -> string.

(** [CommandParser.run(cmdstr, count=..., ignore_exc=...)]: the external
    executor.  It returns whether the command was called, or raises. *)
Variable commandparser_run : string -> option Z -> bool -> result bool.

(** [KeyParser._handle_single_key], the handler of the base class that the
    override delegates to; the override drops its return value. *)
Variable super_handle_single_key : KeyEvent -> M Base unit.

(** [self.commandparser.run(...)] as a method step. *)
Definition run_command (cmdstr : string) (count : option Z) (ignore_exc : bool)
  : M Base bool :=
  fun self =>
    mkOutcome (commandparser_run cmdstr count ignore_exc) self
      [CommandRun cmdstr count ignore_exc].

(** [_run_or_fill(cmdstr, count=None, ignore_exc=True)]: run the command in
    [cmdstr] or fill the statusbar if arguments are missing. *)
Definition _run_or_fill (cmdstr : string) (count : option Z) (ignore_exc : bool)
  : M Base unit :=
  try_except
    (run_command cmdstr count ignore_exc ;; ret tt)
    (fun e =>
       match e with
       | NoSuchCommandError => Some (ret tt)
       | ArgumentCountError =>
           Some (call (LogDebug ("Filling statusbar with partial command " ++ cmdstr)) ;;
                 call (SetCmdText (":" ++ cmdstr ++ " ")))
       | OtherError _ => None
       end).

(** [any(txt == c for c in STARTCHARS)]. *)
Definition is_startchar (txt : string) : bool :=
  existsb (String.eqb txt) (PyStr.chars STARTCHARS).

(** Truth value of a Python string: the empty string is false. *)
Definition truthy (s : string) : bool :=
  match s with
  | EmptyString => false
  | String _ _ => true
  end.

(** [_handle_single_key(e)]: abort if the key is a start character,
    otherwise hand the event to the base class. *)
Definition _handle_single_key (e : KeyEvent) : M Base unit :=
  let txt := PyStr.strip (text e) in
  self ← get_self;
  if negb (truthy (_keystring self)) && is_startchar txt
  then call (SetCmdText txt)
  else super_handle_single_key e.

(** [execute(cmdstr, count=None)]: handle a completed keychain. *)
Definition execute (cmdstr : string) (count : option Z) : M Base unit :=
  _run_or_fill cmdstr count false.

(** The test [key.startswith('@') and key.endswith('@')]. *)
Definition is_modifier_spec (k : string) : bool :=
  PyStr.startswith "@" k && PyStr.endswith "@" k.

(** The body of the loop of [read_config] for one [(key, cmd)] item. *)
Definition register_binding (item : string * string) : M Base unit :=
  let '(k, cmd) := item in
  if is_modifier_spec k
  then
    let keystr := _normalize_keystr (PyStr.strip_chars "@" k) in
    call (LogDebug ("registered mod key: " ++ keystr ++ " -> " ++ cmd)) ;;
    set_modifier_binding keystr cmd
  else
    call (LogDebug ("registered key: " ++ k ++ " -> " ++ cmd)) ;;
    set_binding k cmd.

(** [read_config()], with [items] the value of
    [config.instance['keybind'].items()]. *)
Definition read_config (items : list (string * string)) : M Base unit :=
  (if match items with [] => true | _ => false end
   then call (LogWarn "No keybindings defined!")
   else ret tt) ;;
  for_each items register_binding.

(** [on_config_changed(section, option)]: re-read the configuration if a
    keybinding was changed. *)
Definition on_config_changed (section option_ : string)
    (items : list (string * string)) : M Base unit :=
  if String.eqb section "keybind" then read_config items else ret tt.

End CommandKeyParser.

(** ** The keychain accumulator of the base class

    [KeyParser._handle_single_key], the handler that the override hands
    the event to, is not part of this module.  It is modelled here from the
    description of the Keychain Accumulator, over a parser whose base state
    is the pending count. *)

(** [supports_count = True]: the command key parser captures counts. *)
Definition supports_count : bool := true.

(** Modelled from the spec: the base-class state the accumulator keeps
    besides the keystring is the pending count, an optional non-negative
    integer. *)
Definition PendingCount : Type := option Z.

(** Modelled from the spec: a key event carries a modifier when its
    modifier indicator is set. *)
Definition carries_modifier (e : KeyEvent) : bool := negb (modifiers e =? 0)%Z.

(** Modelled from the spec: the value of a text that is one decimal digit. *)
Definition digit_value (txt : string) : option Z :=
  match txt with
  | String c EmptyString =>
      let n := nat_of_ascii c in
      if (48 <=? n)%nat && (n <=? 57)%nat then Some (Z.of_nat (n - 48)) else None
  | _ => None
  end.

(** Modelled from the spec: a bare digit is a key event without modifier
    whose text is one digit. *)
Definition bare_digit (e : KeyEvent) : option Z :=
  if carries_modifier e then None else digit_value (text e).

(** Modelled from the spec: appending a digit to the pending count. *)
Definition append_digit (count : PendingCount) (d : Z) : Z :=
  match count with
  | None => d
  | Some n => (10 * n + d)%Z
  end.

(** Modelled from the spec: the keystring is a strict prefix of at least
    one entry of the table. *)
Definition has_longer_binding (ks : string) (table : gmap string string) : bool :=
  existsb (fun kv => String.prefix ks kv.1 && negb (String.eqb ks kv.1))
          (map_to_list table).

(** Modelled from the spec: the accumulator replaces its pending state, the
    keystring and the count. *)
Definition set_pending (ks : string) (count : PendingCount) : M PendingCount unit :=
  fun self =>
    mkOutcome (Return tt)
      (mkKeyParser ks (_bindings self) (_modifier_bindings self) count) [].

Section KeychainAccumulator.

(** [CommandParser.run], as for [_run_or_fill]. *)
Variable commandparser_run : string -> option Z -> bool -> result bool.

(** The canonical notation of a chord is not described: the modifier
    keystring is a function of the keystring with the text appended and of
    the event. *)
Variable chord_keystr : string -> KeyEvent -> string.

(** Modelled from the spec: the transition of the Keychain Accumulator on
    a key event that the start-character interceptor let through.  A bare
    digit, with count capture enabled, is appended to the pending count.
    Otherwise the text is appended to the keystring, normalised to a
    modifier keystring if the event carries a modifier, and looked up in
    the appropriate table: an exact match is dispatched through [execute]
    with the pending count, and the pending state is reset; a strict prefix
    of some entry is kept as the keystring; a dead end resets the pending
    state without dispatching. *)
Definition KeyParser_handle_single_key (e : KeyEvent) : M PendingCount unit :=
  self ← get_self;
  match (if supports_count then bare_digit e else None) with
  | Some d => set_pending (_keystring self) (Some (append_digit (_base self) d))
  | None =>
      let appended := _keystring self ++ text e in
      let ks := if carries_modifier e then chord_keystr appended e else appended in
      let table :=
        if carries_modifier e then _modifier_bindings self else _bindings self in
      match table !! ks with
      | Some cmd => execute commandparser_run cmd (_base self) ;; set_pending "" None
      | None =>
          if has_longer_binding ks table
          then set_pending ks (_base self)
          else set_pending "" None
      end
  end.

End KeychainAccumulator.

(** ** Observations on states and traces *)

(** [lookup_plain] and [lookup_modifier]: exact-match lookups in the two
    binding tables. *)
Definition lookup_plain {Base} (self : KeyParser Base) (k : string) : option string :=
  _bindings self !! k.

Definition lookup_modifier {Base} (self : KeyParser Base) (k : string) : option string :=
  _modifier_bindings self !! k.

(** The texts sent through [set_cmd_text], in order. *)
Fixpoint status_texts (t : list event) : list string :=
  match t with
  | [] => []
  | SetCmdText txt :: t' => txt :: status_texts t'
  | _ :: t' => status_texts t'
  end.

(** The messages logged at warning level, in order. *)
Fixpoint warnings (t : list event) : list string :=
  match t with
  | [] => []
  | LogWarn msg :: t' => msg :: warnings t'
  | _ :: t' => warnings t'
  end.

(** The calls made on the command parser, in order. *)
Fixpoint command_runs (t : list event) : list (string * option Z * bool) :=
  match t with
  | [] => []
  | CommandRun cmdstr count ignore_exc :: t' =>
      (cmdstr, count, ignore_exc) :: command_runs t'
  | _ :: t' => command_runs t'
  end.

(** An error is surfaced when the call ends with an exception, which the
    caller gets to see. *)
Definition surfaces_error {Base A} (o : outcome Base A) : bool :=
  match ended o with
  | Return _ => false
  | Raise _ => true
  end.

(** ** The reload as the specification words it

    A key-spec is wrapped when its first and its last character are the
    delimiter.  The wrapped key-specs give the entries of the modifier
    table, stripped and normalised; the others give the entries of the plain
    table, verbatim. *)

Definition is_wrapped (k : string) : bool :=
  match PyStr.first_char k, PyStr.last_char k with
  | Some a, Some b => Ascii.eqb a "@" && Ascii.eqb b "@"
  | _, _ => false
  end.

Definition plain_entries (items : list (string * string)) : list (string * string) :=
  filter (fun kv => is_wrapped kv.1 = false) items.

Definition modifier_entries (normalize : string -> string)
    (items : list (string * string)) : list (string * string) :=
  map (fun kv => (normalize (PyStr.strip_chars "@" kv.1), kv.2))
      (filter (fun kv => is_wrapped kv.1 = true) items).

(** Assignments [d[k] = v] made in order on a dictionary. *)
Definition insert_all (l : list (string * string)) (d : gmap string string)
  : gmap string string :=
  foldl (fun d kv => <[kv.1 := kv.2]> d) d l.

(** Whether [k] is the key of one of the entries. *)
Definition bound_in (l : list (string * string)) (k : string) : bool :=
  existsb (fun kv => String.eqb kv.1 k) l.

(** The value of the last entry with key [k]. *)
Fixpoint last_binding (l : list (string * string)) (k : string) : option string :=
  match l with
  | [] => None
  | kv :: l' =>
      match last_binding l' k with
      | Some v => Some v
      | None => if String.eqb kv.1 k then Some kv.2 else None
      end
  end.

(** A keystring is derived from a key-spec of the configuration, for the
    plain and for the modifier table. *)
Definition plain_spec_of (items : list (string * string)) (k : string) : bool :=
  bound_in (plain_entries items) k.

Definition modifier_spec_of (normalize : string -> string)
    (items : list (string * string)) (k : string) : bool :=
  bound_in (modifier_entries normalize items) k.

(** The parser object after a reload has registered [items]. *)
Definition registered {Base} (normalize : string -> string)
    (items : list (string * string)) (self : KeyParser Base) : KeyParser Base :=
  mkKeyParser (_keystring self)
    (insert_all (plain_entries items) (_bindings self))
    (insert_all (modifier_entries normalize items) (_modifier_bindings self))
    (_base self).

(** The debug line of the loop of [read_config] for one item. *)
Definition register_line (normalize : string -> string) (kv : string * string) : event :=
  if is_modifier_spec kv.1
  then LogDebug ("registered mod key: " ++ normalize (PyStr.strip_chars "@" kv.1)
                 ++ " -> " ++ kv.2)
  else LogDebug ("registered key: " ++ kv.1 ++ " -> " ++ kv.2).

(** ** Collaborators for the examples *)

Module Sample.

(** A normaliser to run the examples with: every [-] becomes [+]. *)
Fixpoint normalize (s : string) : string :=
  match s with
  | EmptyString => EmptyString
  | String c s' => String (if Ascii.eqb c "-" then "+"%char else c) (normalize s')
  end.

(** An executor to run the examples with.  With [ignore_exc] it keeps its
    exceptions to itself and returns [False]; without, [open] lacks its
    argument, [nope] is no command, [crash] fails otherwise and anything
    else runs. *)
Definition run (cmdstr : string) (count : option Z) (ignore_exc : bool) : result bool :=
  if ignore_exc then
    Return (negb (String.eqb cmdstr "open" || String.eqb cmdstr "nope"))
  else if String.eqb cmdstr "open" then Raise ArgumentCountError
  else if String.eqb cmdstr "nope" then Raise NoSuchCommandError
  else if String.eqb cmdstr "crash" then Raise (OtherError "RuntimeError")
  else Return true.

(** A base-class handler to run the examples with: it appends the text of
    the event to the keystring and logs the key. *)
Definition handle_single_key (e : KeyEvent) : M unit unit :=
  fun self =>
    mkOutcome (Return tt)
      (mkKeyParser (_keystring self ++ text e) (_bindings self)
         (_modifier_bindings self) (_base self))
      [LogDebug ("Got key: " ++ text e)].

(** A parser as the base class constructs it: nothing typed, nothing bound. *)
Definition fresh : KeyParser unit := mkKeyParser "" ∅ ∅ tt.

(** A parser that already holds one plain and one modifier binding. *)
Definition bound : KeyParser unit :=
  mkKeyParser "" {["x" := "quit"]} {["Ctrl+q" := "quit"]} tt.

(** A parser in the middle of a keychain. *)
Definition typing : KeyParser unit := mkKeyParser "g" ∅ ∅ tt.

(** A parser with a pending count, as the base class constructs it: nothing
    typed, no count, nothing bound. *)
Definition idle : KeyParser PendingCount := mkKeyParser "" ∅ ∅ None.

(** A chord notation to run the examples with: the text between brackets. *)
Definition chord_keystr (appended : string) (e : KeyEvent) : string :=
  "<" ++ appended ++ ">".

(** The colon key. *)
Definition colon_key : KeyEvent := mkKeyEvent 58 0 ":".

(** The configuration of the docstring of [read_config]. *)
Definition docstring_items : list (string * string) := [("gg", "scrollstart")].

End Sample.

(** ** Facts about the string operations *)

Lemma startswith_at (k : string) :
  PyStr.startswith "@" k = true <-> PyStr.first_char k = Some "@"%char.
Proof.
  unfold PyStr.startswith, PyStr.first_char.
  destruct k as [|c k']; [split; discriminate|].
  change (String.prefix "@" (String c k'))
    with (match ascii_dec "@" c with
          | left _ => String.prefix "" k'
          | right _ => false
          end).
  change (String.get 0 (String c k')) with (Some c).
  destruct (ascii_dec "@" c) as [<-|Hne].
  - destruct k'; split; reflexivity.
  - split; [discriminate|]. intros [= Hc]. congruence.
Qed.

Lemma endswith_at (k : string) :
  PyStr.endswith "@" k = true <-> PyStr.last_char k = Some "@"%char.
Proof.
  induction k as [|c k' IH]; [simpl; split; discriminate|].
  destruct k' as [|d k''].
  - simpl. rewrite !orb_false_r.
    destruct (Ascii.eqb_spec c "@") as [->|Hne]; split; try reflexivity.
    + discriminate.
    + intros [= Hc]. contradiction.
  - change (PyStr.endswith "@" (String c (String d k'')))
      with (String.eqb (String c (String d k'')) "@"
            || PyStr.endswith "@" (String d k'')).
    change (PyStr.last_char (String c (String d k'')))
      with (PyStr.last_char (String d k'')).
    replace (String.eqb (String c (String d k'')) "@") with false; [exact IH|].
    simpl. destruct (Ascii.eqb c "@"); reflexivity.
Qed.

Lemma is_modifier_spec_wrapped (k : string) : is_modifier_spec k = is_wrapped k.
Proof.
  unfold is_modifier_spec, is_wrapped.
  pose proof (startswith_at k) as Hs. pose proof (endswith_at k) as He.
  destruct (PyStr.first_char k) as [a|], (PyStr.last_char k) as [b|];
    destruct (PyStr.startswith "@" k), (PyStr.endswith "@" k); simpl;
    try (destruct Hs as [Hs _]; specialize (Hs eq_refl); try discriminate;
         injection Hs as ->);
    try (destruct He as [He _]; specialize (He eq_refl); try discriminate;
         injection He as ->);
    try reflexivity.
  - symmetry. apply andb_false_iff.
    destruct (Ascii.eqb_spec b "@") as [->|]; [|by right].
    destruct He as [_ He]. specialize (He eq_refl). discriminate.
  - symmetry. apply andb_false_iff.
    destruct (Ascii.eqb_spec a "@") as [->|]; [|by left].
    destruct Hs as [_ Hs]. specialize (Hs eq_refl). discriminate.
  - symmetry. apply andb_false_iff.
    destruct (Ascii.eqb_spec a "@") as [->|]; [|by left].
    destruct Hs as [_ Hs]. specialize (Hs eq_refl). discriminate.
Qed.

Lemma is_wrapped_chars (k : string) :
  is_wrapped k = true <->
  PyStr.first_char k = Some "@"%char /\ PyStr.last_char k = Some "@"%char.
Proof.
  unfold is_wrapped.
  destruct (PyStr.first_char k) as [a|], (PyStr.last_char k) as [b|];
    try (split; [discriminate | intros [? ?]; discriminate]).
  rewrite andb_true_iff.
  split.
  - intros [Ha Hb]. apply Ascii.eqb_eq in Ha, Hb. by subst.
  - intros [[= ->] [= ->]]. split; reflexivity.
Qed.

Lemma char_in_at (c : ascii) : PyStr.char_in "@" c = Ascii.eqb c "@".
Proof. unfold PyStr.char_in. simpl. apply orb_false_r. Qed.

Lemma lstrip_by_replicate (p : ascii -> bool) (c : ascii) (n : nat) (s : string) :
  p c = true ->
  PyStr.lstrip_by p (PyStr.replicate_char n c ++ s) = PyStr.lstrip_by p s.
Proof.
  intros Hp. induction n as [|n IH]; [reflexivity|].
  simpl. by rewrite Hp.
Qed.

Lemma rstrip_by_replicate_only (p : ascii -> bool) (c : ascii) (n : nat) :
  p c = true -> PyStr.rstrip_by p (PyStr.replicate_char n c) = "".
Proof.
  intros Hp. induction n as [|n IH]; [reflexivity|].
  simpl. by rewrite IH, Hp.
Qed.

Lemma rstrip_by_keeps (p : ascii -> bool) (s : string) :
  match PyStr.last_char s with Some c => p c = false | None => True end ->
  PyStr.rstrip_by p s = s.
Proof.
  induction s as [|c s' IH]; [reflexivity|].
  destruct s' as [|d s''].
  - simpl. by intros ->.
  - intros H.
    change (PyStr.last_char (String c (String d s'')))
      with (PyStr.last_char (String d s'')) in H.
    specialize (IH H).
    change (PyStr.rstrip_by p (String c (String d s'')))
      with (match PyStr.rstrip_by p (String d s'') with
            | EmptyString => if p c then EmptyString else String c EmptyString
            | r => String c r
            end).
    by rewrite IH.
Qed.

Lemma rstrip_by_replicate (p : ascii -> bool) (c : ascii) (n : nat) (s : string) :
  p c = true ->
  match PyStr.last_char s with Some d => p d = false | None => True end ->
  PyStr.rstrip_by p (s ++ PyStr.replicate_char n c) = s.
Proof.
  intros Hp. induction s as [|d s' IH]; intros Hs.
  - simpl. by apply rstrip_by_replicate_only.
  - assert (PyStr.rstrip_by p (s' ++ PyStr.replicate_char n c) = s') as Hr.
    { destruct s' as [|d' s'']; [by apply rstrip_by_replicate_only|].
      apply IH. exact Hs. }
    simpl. rewrite Hr.
    destruct s' as [|d' s'']; [|reflexivity].
    simpl in Hs. by rewrite Hs.
Qed.

Lemma lstrip_by_keeps (p : ascii -> bool) (s : string) :
  match PyStr.first_char s with Some c => p c = false | None => True end ->
  PyStr.lstrip_by p s = s.
Proof.
  destruct s as [|c s']; [reflexivity|].
  unfold PyStr.first_char. simpl. by intros ->.
Qed.

(** Stripping removes every delimiter at either end of a core that neither
    starts nor ends with one. *)
Lemma strip_chars_at_runs (m n : nat) (core : string) :
  PyStr.first_char core <> Some "@"%char ->
  PyStr.last_char core <> Some "@"%char ->
  PyStr.strip_chars "@"
    (PyStr.replicate_char m "@" ++ core ++ PyStr.replicate_char n "@") = core.
Proof.
  intros Hf Hl. unfold PyStr.strip_chars, PyStr.strip_by.
  rewrite lstrip_by_replicate by reflexivity.
  destruct core as [|c core'].
  - assert (forall j, PyStr.lstrip_by (PyStr.char_in "@") (PyStr.replicate_char j "@") = "")
      as Hrun.
    { induction j as [|j IH]; [reflexivity|]. exact IH. }
    change ("" ++ PyStr.replicate_char n "@") with (PyStr.replicate_char n "@").
    by rewrite Hrun.
  - assert (PyStr.char_in "@" c = false) as Hc.
    { rewrite char_in_at. destruct (Ascii.eqb_spec c "@") as [->|]; [|done].
      by destruct Hf. }
    change (String c core' ++ PyStr.replicate_char n "@")
      with (String c (core' ++ PyStr.replicate_char n "@")).
    simpl PyStr.lstrip_by. rewrite Hc.
    change (String c (core' ++ PyStr.replicate_char n "@"))
      with (String c core' ++ PyStr.replicate_char n "@").
    apply rstrip_by_replicate; [reflexivity|].
    destruct (PyStr.last_char (String c core')) as [d|]; [|done].
    rewrite char_in_at. destruct (Ascii.eqb_spec d "@") as [->|]; [|done].
    by destruct Hl.
Qed.

(** ** Facts about dictionaries filled by assignment *)

Lemma insert_all_cons (kv : string * string) (l : list (string * string))
    (d : gmap string string) :
  insert_all (kv :: l) d = insert_all l (<[kv.1 := kv.2]> d).
Proof. reflexivity. Qed.

(** A lookup after the assignments finds the last value assigned to the key,
    or else what the dictionary held before. *)
Lemma lookup_insert_all (l : list (string * string)) (d : gmap string string)
    (k : string) :
  insert_all l d !! k =
  match last_binding l k with
  | Some v => Some v
  | None => d !! k
  end.
Proof.
  revert d. induction l as [|kv l IH]; intros d; [reflexivity|].
  rewrite insert_all_cons, IH. simpl.
  destruct (last_binding l k) as [v|]; [reflexivity|].
  destruct (String.eqb_spec kv.1 k) as [->|Hne].
  - apply lookup_insert_eq.
  - by apply lookup_insert_ne.
Qed.

Lemma last_binding_bound_in (l : list (string * string)) (k : string) :
  is_Some (last_binding l k) <-> bound_in l k = true.
Proof.
  induction l as [|kv l IH]; simpl.
  - split; [intros [? ?]; discriminate | discriminate].
  - rewrite orb_true_iff, <- IH.
    destruct (last_binding l k) as [v|].
    + split; [intros _; right; eauto | eauto].
    + destruct (String.eqb kv.1 k).
      * split; [by left | eauto].
      * split; [intros [? ?]; discriminate|].
        intros [?|[? ?]]; discriminate.
Qed.

Lemma insert_all_is_Some (l : list (string * string)) (d : gmap string string)
    (k : string) :
  is_Some (insert_all l d !! k) <-> bound_in l k = true \/ is_Some (d !! k).
Proof.
  rewrite lookup_insert_all, <- last_binding_bound_in.
  destruct (last_binding l k) as [v|].
  - split; [intros _; left; eauto | eauto].
  - split; [by right|]. intros [[? ?]|?]; [discriminate | done].
Qed.

Lemma insert_all_unbound (l : list (string * string)) (d : gmap string string)
    (k : string) :
  bound_in l k = false -> insert_all l d !! k = d !! k.
Proof.
  intros Hk. rewrite lookup_insert_all.
  destruct (last_binding l k) as [v|] eqn:Hl; [|reflexivity].
  assert (bound_in l k = true) by (apply last_binding_bound_in; eauto).
  congruence.
Qed.

(** Making the same assignments a second time changes nothing. *)
Lemma insert_all_twice (l : list (string * string)) (d : gmap string string) :
  insert_all l (insert_all l d) = insert_all l d.
Proof.
  apply map_eq. intros k.
  rewrite (lookup_insert_all l (insert_all l d)).
  destruct (last_binding l k) as [v|] eqn:Hl; [|reflexivity].
  by rewrite lookup_insert_all, Hl.
Qed.

Lemma plain_entries_cons (kv : string * string) (items : list (string * string)) :
  plain_entries (kv :: items) =
  if is_wrapped kv.1 then plain_entries items else kv :: plain_entries items.
Proof.
  unfold plain_entries. rewrite filter_cons.
  destruct (is_wrapped kv.1); by case_decide.
Qed.

Lemma modifier_entries_cons (normalize : string -> string) (kv : string * string)
    (items : list (string * string)) :
  modifier_entries normalize (kv :: items) =
  if is_wrapped kv.1
  then (normalize (PyStr.strip_chars "@" kv.1), kv.2) :: modifier_entries normalize items
  else modifier_entries normalize items.
Proof.
  unfold modifier_entries. rewrite filter_cons.
  destruct (is_wrapped kv.1); by case_decide.
Qed.

(** No entry of the plain table has a wrapped key. *)
Lemma plain_entries_unwrapped (items : list (string * string)) (k : string) :
  is_wrapped k = true -> bound_in (plain_entries items) k = false.
Proof.
  intros Hk. induction items as [|kv items IH]; [reflexivity|].
  rewrite plain_entries_cons.
  destruct (is_wrapped kv.1) eqn:Hw; [exact IH|].
  simpl. rewrite IH, orb_false_r.
  destruct (String.eqb_spec kv.1 k) as [Heq|]; [|reflexivity].
  congruence.
Qed.

(** ** Facts about the methods *)

Section Methods.

Context {Base : Type}.
Variable normalize : string -> string.
Variable run : string -> option Z -> bool -> result bool.
Variable super : KeyEvent -> M Base unit.

Lemma outcome_eta {A} (o : outcome Base A) :
  mkOutcome (ended o) (self_after o) (trace o) = o.
Proof. by destruct o. Qed.

Lemma self_eta (self : KeyParser Base) :
  mkKeyParser (_keystring self) (_bindings self) (_modifier_bindings self)
    (_base self) = self.
Proof. by destruct self. Qed.

(** What [_run_or_fill] does, by the way the executor ends. *)
Lemma run_or_fill_cases (cmdstr : string) (count : option Z) (ignore_exc : bool)
    (self : KeyParser Base) :
  _run_or_fill run cmdstr count ignore_exc self =
  match run cmdstr count ignore_exc with
  | Return _ | Raise NoSuchCommandError =>
      mkOutcome (Return tt) self [CommandRun cmdstr count ignore_exc]
  | Raise ArgumentCountError =>
      mkOutcome (Return tt) self
        [CommandRun cmdstr count ignore_exc;
         LogDebug ("Filling statusbar with partial command " ++ cmdstr);
         SetCmdText (":" ++ cmdstr ++ " ")]
  | Raise (OtherError name) =>
      mkOutcome (Raise (OtherError name)) self [CommandRun cmdstr count ignore_exc]
  end.
Proof.
  unfold _run_or_fill, try_except, run_command, mbind, M_bind, bind, call, ret.
  simpl.
  destruct (run cmdstr count ignore_exc) as [b|[| |name]]; reflexivity.
Qed.

(** The loop of [read_config] never raises; it makes the assignments of the
    entries on the two tables and logs one line per item. *)
Lemma for_each_register_binding (items : list (string * string))
    (self : KeyParser Base) :
  for_each items (register_binding normalize) self =
  mkOutcome (Return tt) (registered normalize items self)
    (map (register_line normalize) items).
Proof.
  revert self. induction items as [|[k cmd] items IH]; intros self.
  - unfold registered, plain_entries, modifier_entries. simpl.
    unfold ret. by rewrite self_eta.
  - change (for_each ((k, cmd) :: items) (register_binding normalize) self)
      with (bind (register_binding normalize (k, cmd))
              (fun _ => for_each items (register_binding normalize)) self).
    change (map (register_line normalize) ((k, cmd) :: items))
      with (register_line normalize (k, cmd) :: map (register_line normalize) items).
    unfold bind, registered, register_line at 1.
    rewrite plain_entries_cons, modifier_entries_cons.
    unfold register_binding. simpl fst; simpl snd.
    rewrite <- is_modifier_spec_wrapped.
    destruct (is_modifier_spec k);
      unfold mbind, M_bind, bind, call, set_binding, set_modifier_binding;
      cbn [ended self_after trace]; rewrite IH; reflexivity.
Qed.

(** The whole of [read_config]. *)
Lemma read_config_outcome (items : list (string * string)) (self : KeyParser Base) :
  read_config normalize items self =
  mkOutcome (Return tt) (registered normalize items self)
    (match items with
     | [] => [LogWarn "No keybindings defined!"]
     | _ => map (register_line normalize) items
     end).
Proof.
  unfold read_config, mbind, M_bind, bind.
  destruct items as [|kv items].
  - cbn. unfold registered, plain_entries, modifier_entries. cbn.
    by rewrite self_eta.
  - change (@ret Base unit tt self) with (mkOutcome (Return tt) self (@nil event)).
    cbn [ended self_after trace app].
    by rewrite for_each_register_binding.
Qed.

(** The override either diverts the key to the status line or is the
    handler of the base class. *)
Lemma handle_single_key_cases (e : KeyEvent) (self : KeyParser Base) :
  _handle_single_key super e self =
  if negb (truthy (_keystring self)) && is_startchar (PyStr.strip (text e))
  then mkOutcome (Return tt) self [SetCmdText (PyStr.strip (text e))]
  else super e self.
Proof.
  unfold _handle_single_key, mbind, M_bind, bind, get_self.
  cbn [ended self_after trace].
  destruct (negb (truthy (_keystring self)) && is_startchar (PyStr.strip (text e))).
  - reflexivity.
  - simpl. apply outcome_eta.
Qed.

Lemma is_startchar_reserved (txt : string) :
  In txt [":"; "/"; "?"] -> is_startchar txt = true /\ PyStr.strip txt = txt.
Proof.
  intros [<-|[<-|[<-|[]]]]; split; reflexivity.
Qed.

End Methods.

(** ** Properties of the reload *)

Section Reload.

Context {Base : Type}.
Variable normalize : string -> string.

(** C1 (as amended): [read_config] does not clear the tables, it assigns
    the bindings of the new configuration on top of what they hold.  After
    the call a plain (modifier) lookup of a keystring succeeds exactly when
    the keystring is derived from a key-spec of the new configuration for
    that table or was bound in that table before the call; a keystring that
    no key-spec of the new configuration gives keeps the binding it had, so
    a binding present only before the call is still there; and on tables
    that were empty before the call a lookup succeeds exactly when the
    keystring is derived from the new configuration. *)
Theorem read_config_adds_to_prior_tables (items : list (string * string))
    (self : KeyParser Base) (k : string) :
  let self' := self_after (read_config normalize items self) in
  (is_Some (lookup_plain self' k) <->
     plain_spec_of items k = true \/ is_Some (lookup_plain self k)) /\
  (is_Some (lookup_modifier self' k) <->
     modifier_spec_of normalize items k = true \/ is_Some (lookup_modifier self k)) /\
  (plain_spec_of items k = false -> lookup_plain self' k = lookup_plain self k) /\
  (modifier_spec_of normalize items k = false ->
     lookup_modifier self' k = lookup_modifier self k) /\
  (_bindings self = ∅ ->
     (is_Some (lookup_plain self' k) <-> plain_spec_of items k = true)) /\
  (_modifier_bindings self = ∅ ->
     (is_Some (lookup_modifier self' k) <-> modifier_spec_of normalize items k = true)).
Proof.
  cbn zeta. rewrite read_config_outcome.
  unfold lookup_plain, lookup_modifier, plain_spec_of, modifier_spec_of, registered.
  cbn [self_after _bindings _modifier_bindings].
  repeat split.
  - by apply insert_all_is_Some.
  - by apply insert_all_is_Some.
  - by apply insert_all_is_Some.
  - by apply insert_all_is_Some.
  - apply insert_all_unbound.
  - apply insert_all_unbound.
  - rewrite insert_all_is_Some, H. intros [?|[? Hx]]; [done|].
    by rewrite lookup_empty in Hx.
  - intros Hb. apply insert_all_is_Some. by left.
  - rewrite insert_all_is_Some, H. intros [?|[? Hx]]; [done|].
    by rewrite lookup_empty in Hx.
  - intros Hb. apply insert_all_is_Some. by left.
Qed.

(** C5: [read_config] routes every key-spec by its delimiters.  The plain
    table receives, verbatim, the key-specs that are not wrapped and nothing
    else; the modifier table receives the wrapped key-specs, stripped of
    their delimiters and normalised, and nothing else.  Item by item: a
    wrapped key-spec changes the modifier table only, an unwrapped one the
    plain table only; and a reload never touches the plain table at a
    wrapped key. *)
Theorem read_config_routes_key_specs (items : list (string * string))
    (self : KeyParser Base) :
  let self' := self_after (read_config normalize items self) in
  _bindings self' = insert_all (plain_entries items) (_bindings self) /\
  _modifier_bindings self' =
    insert_all (modifier_entries normalize items) (_modifier_bindings self) /\
  (forall k cmd (s : KeyParser Base), is_wrapped k = true ->
     self_after (read_config normalize [(k, cmd)] s) =
     mkKeyParser (_keystring s) (_bindings s)
       (<[normalize (PyStr.strip_chars "@" k) := cmd]> (_modifier_bindings s))
       (_base s)) /\
  (forall k cmd (s : KeyParser Base), is_wrapped k = false ->
     self_after (read_config normalize [(k, cmd)] s) =
     mkKeyParser (_keystring s) (<[k := cmd]> (_bindings s))
       (_modifier_bindings s) (_base s)) /\
  (forall k, is_wrapped k = true -> lookup_plain self' k = lookup_plain self k).
Proof.
  cbn zeta. rewrite read_config_outcome.
  unfold registered. cbn [self_after _bindings _modifier_bindings].
  repeat split.
  - intros k cmd s Hk. rewrite read_config_outcome.
    unfold registered. cbn [self_after].
    rewrite plain_entries_cons, modifier_entries_cons. cbn [fst snd].
    by rewrite Hk.
  - intros k cmd s Hk. rewrite read_config_outcome.
    unfold registered. cbn [self_after].
    rewrite plain_entries_cons, modifier_entries_cons. cbn [fst snd].
    by rewrite Hk.
  - intros k Hk. unfold lookup_plain. cbn [_bindings].
    apply insert_all_unbound. by apply plain_entries_unwrapped.
Qed.

(** C8: reading the same configuration a second time leaves the parser
    as the first reading left it, so every plain and every modifier lookup
    gives the same result after the second call as after the first. *)
Theorem read_config_idempotent (items : list (string * string))
    (self : KeyParser Base) :
  let once := self_after (read_config normalize items self) in
  let twice := self_after (read_config normalize items once) in
  twice = once /\
  forall k, lookup_plain twice k = lookup_plain once k /\
            lookup_modifier twice k = lookup_modifier once k.
Proof.
  cbn zeta. rewrite !read_config_outcome. cbn [self_after].
  assert (registered normalize items (registered normalize items self)
          = registered normalize items self) as Heq.
  { unfold registered. cbn [_keystring _bindings _modifier_bindings _base].
    by rewrite !insert_all_twice. }
  rewrite Heq. by split.
Qed.

(** C10: a key-spec is taken as a modifier spec exactly when its first and
    its last character are both the delimiter; such a key-spec is stored in
    the modifier table under the normalisation of what [strip('@')] leaves,
    and the plain table is left alone.  [strip('@')] removes every leading
    and every trailing delimiter, so the key-spec made of the delimiter
    alone is stored under the normalisation of the empty string, and the
    doubled delimiters around [a] under the normalisation of [a]. *)
Theorem modifier_spec_strips_every_delimiter :
  (forall k, is_modifier_spec k = true <->
     PyStr.first_char k = Some "@"%char /\ PyStr.last_char k = Some "@"%char) /\
  (forall k cmd (self : KeyParser Base), is_modifier_spec k = true ->
     self_after (read_config normalize [(k, cmd)] self) =
     mkKeyParser (_keystring self) (_bindings self)
       (<[normalize (PyStr.strip_chars "@" k) := cmd]> (_modifier_bindings self))
       (_base self)) /\
  (forall m n core,
     PyStr.first_char core <> Some "@"%char ->
     PyStr.last_char core <> Some "@"%char ->
     PyStr.strip_chars "@"
       (PyStr.replicate_char m "@" ++ core ++ PyStr.replicate_char n "@") = core) /\
  (forall cmd (self : KeyParser Base),
     lookup_modifier (self_after (read_config normalize [("@", cmd)] self))
       (normalize "") = Some cmd) /\
  (forall cmd (self : KeyParser Base),
     lookup_modifier (self_after (read_config normalize [("@@a@@", cmd)] self))
       (normalize "a") = Some cmd).
Proof.
  assert (forall k cmd (self : KeyParser Base), is_modifier_spec k = true ->
     self_after (read_config normalize [(k, cmd)] self) =
     mkKeyParser (_keystring self) (_bindings self)
       (<[normalize (PyStr.strip_chars "@" k) := cmd]> (_modifier_bindings self))
       (_base self)) as Hone.
  { intros k cmd self Hk. rewrite read_config_outcome.
    unfold registered. cbn [self_after].
    rewrite plain_entries_cons, modifier_entries_cons. cbn [fst snd].
    by rewrite <- is_modifier_spec_wrapped, Hk. }
  split; [|split; [exact Hone|split; [|split]]].
  - intros k. rewrite is_modifier_spec_wrapped. apply is_wrapped_chars.
  - intros m n core. apply strip_chars_at_runs.
  - intros cmd self. rewrite Hone by reflexivity.
    unfold lookup_modifier. cbn [_modifier_bindings].
    change (PyStr.strip_chars "@" "@") with "". apply lookup_insert_eq.
  - intros cmd self. rewrite Hone by reflexivity.
    unfold lookup_modifier. cbn [_modifier_bindings].
    change (PyStr.strip_chars "@" "@@a@@") with "a". apply lookup_insert_eq.
Qed.

End Reload.

(** ** Properties of key handling and of the empty configuration *)

Section Keys.

Context {Base : Type}.
Variable normalize : string -> string.
Variable super : KeyEvent -> M Base unit.

(** C6: when the keystring is empty and the text of the key event is one
    of the reserved characters, the handler sends exactly that character to
    the status line and returns: the parser object is unchanged, so the
    keystring is still empty, and the handler of the base class, which does
    the table lookups, does not run. *)
Theorem startchar_intercepted_when_idle (e : KeyEvent) (self : KeyParser Base) :
  In (text e) [":"; "/"; "?"] ->
  _keystring self = "" ->
  _handle_single_key super e self = mkOutcome (Return tt) self [SetCmdText (text e)] /\
  status_texts (trace (_handle_single_key super e self)) = [text e] /\
  _keystring (self_after (_handle_single_key super e self)) = "".
Proof.
  intros Hin Hidle.
  destruct (is_startchar_reserved _ Hin) as [Hstart Hstrip].
  assert (_handle_single_key super e self
          = mkOutcome (Return tt) self [SetCmdText (text e)]) as Heq.
  { rewrite handle_single_key_cases, Hstrip, Hstart, Hidle. reflexivity. }
  rewrite Heq. by repeat split.
Qed.

(** C7: when the keystring is not empty, a key event whose text is one of
    the reserved characters is not intercepted: the handler is the handler
    of the base class on that event, with nothing sent to the status line
    besides what the base class sends. *)
Theorem startchar_falls_through_mid_chain (e : KeyEvent) (self : KeyParser Base) :
  In (text e) [":"; "/"; "?"] ->
  _keystring self <> "" ->
  _handle_single_key super e self = super e self /\
  status_texts (trace (_handle_single_key super e self))
  = status_texts (trace (super e self)).
Proof.
  intros _ Hbusy.
  assert (_handle_single_key super e self = super e self) as Heq.
  { rewrite handle_single_key_cases.
    destruct (_keystring self); [done|reflexivity]. }
  by rewrite Heq.
Qed.

End Keys.

(** ** Properties of the dispatch policy *)

Section Dispatch.

Context {Base : Type}.
Variable run : string -> option Z -> bool -> result bool.

(** C2 (as amended): [execute], the handler of a completed keychain, runs
    the command through [_run_or_fill] with [ignore_exc=False]: the command
    parser is called once, with the flag off.  An unknown command is
    swallowed all the same, by [_run_or_fill] itself: the call returns
    normally and nothing goes to the status line. *)
Theorem execute_runs_with_flag_off (cmdstr : string) (count : option Z)
    (self : KeyParser Base) :
  execute run cmdstr count self = _run_or_fill run cmdstr count false self /\
  command_runs (trace (execute run cmdstr count self)) = [(cmdstr, count, false)] /\
  (run cmdstr count false = Raise NoSuchCommandError ->
   ended (execute run cmdstr count self) = Return tt /\
   status_texts (trace (execute run cmdstr count self)) = []).
Proof.
  unfold execute. rewrite run_or_fill_cases.
  split; [reflexivity|]. split.
  - destruct (run cmdstr count false) as [b|[| |name]]; reflexivity.
  - intros ->. by split.
Qed.

(** C3 (as amended): whatever the value of the flag, when the executor
    reports an unknown command [_run_or_fill] swallows it: the call returns
    normally, no error reaches the caller, nothing is sent to the status
    line and the parser object is unchanged. *)
Theorem unknown_command_swallowed (cmdstr : string) (count : option Z)
    (ignore_exc : bool) (self : KeyParser Base) :
  run cmdstr count ignore_exc = Raise NoSuchCommandError ->
  let o := _run_or_fill run cmdstr count ignore_exc self in
  ended o = Return tt /\ surfaces_error o = false /\
  status_texts (trace o) = [] /\ self_after o = self.
Proof.
  intros Hrun. cbn zeta. rewrite run_or_fill_cases, Hrun. by repeat split.
Qed.

(** C4: whatever the value of the flag, when the executor reports an
    argument count mismatch [_run_or_fill] sends exactly one text to the
    status line, the colon, the command string and one space, and returns
    normally, so no error is surfaced. *)
Theorem argument_count_fills_statusbar (cmdstr : string) (count : option Z)
    (ignore_exc : bool) (self : KeyParser Base) :
  run cmdstr count ignore_exc = Raise ArgumentCountError ->
  let o := _run_or_fill run cmdstr count ignore_exc self in
  status_texts (trace o) = [":" ++ cmdstr ++ " "] /\
  ended o = Return tt /\ surfaces_error o = false /\ self_after o = self.
Proof.
  intros Hrun. cbn zeta. rewrite run_or_fill_cases, Hrun. by repeat split.
Qed.

End Dispatch.

(** ** The empty configuration and the keys that follow it *)

Section EmptySection.

Variable normalize : string -> string.
Variable run : string -> option Z -> bool -> result bool.
Variable chord : string -> KeyEvent -> string.

Lemma has_longer_binding_empty (ks : string) : has_longer_binding ks ∅ = false.
Proof. unfold has_longer_binding. by rewrite map_to_list_empty. Qed.

(** On empty tables the accumulator finds nothing: it returns normally,
    calls no collaborator, and leaves the tables empty. *)
Lemma accumulator_empty_tables (e : KeyEvent) (self : KeyParser PendingCount) :
  _bindings self = ∅ -> _modifier_bindings self = ∅ ->
  let o := KeyParser_handle_single_key run chord e self in
  ended o = Return tt /\ trace o = [] /\
  _bindings (self_after o) = ∅ /\ _modifier_bindings (self_after o) = ∅.
Proof.
  intros Hp Hm. cbn zeta.
  unfold KeyParser_handle_single_key, mbind, M_bind, bind, get_self.
  cbn [ended self_after trace].
  destruct (if supports_count then bare_digit e else None) as [d|].
  - unfold set_pending. cbn. by rewrite Hp, Hm.
  - rewrite Hp, Hm.
    destruct (carries_modifier e); rewrite lookup_empty, has_longer_binding_empty;
      unfold set_pending; cbn; by rewrite ?Hp, ?Hm.
Qed.

(** The same for the whole handler: a start character is echoed, anything
    else goes to the accumulator. *)
Lemma handler_empty_tables (e : KeyEvent) (self : KeyParser PendingCount) :
  _bindings self = ∅ -> _modifier_bindings self = ∅ ->
  let o := _handle_single_key (KeyParser_handle_single_key run chord) e self in
  ended o = Return tt /\ command_runs (trace o) = [] /\ warnings (trace o) = [] /\
  _bindings (self_after o) = ∅ /\ _modifier_bindings (self_after o) = ∅.
Proof.
  intros Hp Hm. cbn zeta. rewrite handle_single_key_cases.
  destruct (negb (truthy (_keystring self)) && is_startchar (PyStr.strip (text e))).
  - by repeat split.
  - destruct (accumulator_empty_tables e self Hp Hm) as (He & Ht & Hp' & Hm').
    rewrite Ht. by repeat split.
Qed.

Lemma observers_app (t1 t2 : list event) :
  command_runs (t1 ++ t2) = (command_runs t1 ++ command_runs t2)%list /\
  warnings (t1 ++ t2) = (warnings t1 ++ warnings t2)%list.
Proof.
  induction t1 as [|[msg|msg|txt|c n b] t1 [IHc IHw]]; [done|..]; cbn;
    by rewrite ?IHc, ?IHw.
Qed.

(** Any number of keys on empty tables: no command is run, no warning is
    logged, and the tables stay empty. *)
Lemma keys_on_empty_tables (es : list KeyEvent) (self : KeyParser PendingCount) :
  _bindings self = ∅ -> _modifier_bindings self = ∅ ->
  let o := for_each es (_handle_single_key (KeyParser_handle_single_key run chord)) self in
  ended o = Return tt /\ command_runs (trace o) = [] /\ warnings (trace o) = [] /\
  _bindings (self_after o) = ∅ /\ _modifier_bindings (self_after o) = ∅.
Proof.
  revert self. induction es as [|e es IH]; intros self Hp Hm; [by repeat split|].
  cbn zeta.
  change (for_each (e :: es)
            (_handle_single_key (KeyParser_handle_single_key run chord)) self)
    with (bind (_handle_single_key (KeyParser_handle_single_key run chord) e)
            (fun _ => for_each es
                        (_handle_single_key (KeyParser_handle_single_key run chord)))
            self).
  unfold bind.
  destruct (handler_empty_tables e self Hp Hm) as (He & Hc & Hw & Hp' & Hm').
  rewrite He.
  destruct (IH _ Hp' Hm') as (He2 & Hc2 & Hw2 & Hp2 & Hm2).
  cbn [ended self_after trace].
  destruct (observers_app
              (trace (_handle_single_key (KeyParser_handle_single_key run chord) e self))
              (trace (for_each es
                        (_handle_single_key (KeyParser_handle_single_key run chord))
                        (self_after
                           (_handle_single_key
                              (KeyParser_handle_single_key run chord) e self)))))
    as [-> ->].
  rewrite Hc, Hw, Hc2, Hw2. by repeat split.
Qed.

(** C9 (as amended): [read_config] on an empty section returns normally,
    logs the warning exactly once, and leaves both tables as they were.
    When both tables were empty before the call, as they are when the
    parser is constructed, the tables are empty afterwards: every plain and
    every modifier lookup misses, and whatever keys are then handled, by
    the handler of this module over the accumulator of the base class, no
    command is dispatched, no further warning is logged, and the tables stay
    empty. *)
Theorem read_config_empty_section (self : KeyParser PendingCount) :
  let o := read_config normalize [] self in
  ended o = Return tt /\
  warnings (trace o) = ["No keybindings defined!"] /\
  self_after o = self /\
  (_bindings self = ∅ -> _modifier_bindings self = ∅ ->
   (forall k, lookup_plain (self_after o) k = None /\
              lookup_modifier (self_after o) k = None) /\
   (forall es : list KeyEvent,
      let o' := for_each es
                  (_handle_single_key (KeyParser_handle_single_key run chord))
                  (self_after o) in
      ended o' = Return tt /\
      command_runs (trace o') = [] /\
      warnings (trace o') = [] /\
      _bindings (self_after o') = ∅ /\
      _modifier_bindings (self_after o') = ∅)).
Proof.
  cbn zeta. rewrite read_config_outcome.
  assert (registered normalize [] self = self) as Hsame.
  { unfold registered, plain_entries, modifier_entries. cbn. apply self_eta. }
  cbn [ended self_after trace]. rewrite Hsame.
  split; [reflexivity|]. split; [reflexivity|]. split; [reflexivity|].
  intros Hp Hm. split.
  - intros k. unfold lookup_plain, lookup_modifier.
    rewrite Hp, Hm. by rewrite !lookup_empty.
  - intros es. by apply keys_on_empty_tables.
Qed.

End EmptySection.

(** ** The properties at concrete inputs *)

(** C1, as stated, fails: after reading a configuration that binds [gg]
    only, on a parser that held a binding for [x], the lookup of [x] still
    succeeds although no key-spec of the new configuration gives [x]. *)
Lemma read_config_keeps_prior_binding :
  ~ (is_Some (lookup_plain
                (self_after (read_config Sample.normalize Sample.docstring_items Sample.bound))
                "x")
     <-> plain_spec_of Sample.docstring_items "x" = true).
Proof.
  intros [Hgone _].
  assert (plain_spec_of Sample.docstring_items "x" = true) as Hspec.
  { apply Hgone. exists "quit". vm_compute. reflexivity. }
  vm_compute in Hspec. discriminate.
Qed.

Lemma read_config_adds_to_prior_tables_witness :
  lookup_plain (self_after (read_config Sample.normalize Sample.docstring_items Sample.bound)) "x"
  = lookup_plain Sample.bound "x".
Proof.
  pose proof (read_config_adds_to_prior_tables
                Sample.normalize Sample.docstring_items Sample.bound "x") as H.
  cbn zeta in H. destruct H as (_ & _ & H & _).
  apply H. vm_compute. reflexivity.
Defined.

Lemma read_config_routes_key_specs_witness :
  self_after (read_config Sample.normalize [("@Ctrl-q@", "quit")] Sample.fresh)
  = mkKeyParser "" ∅ (<["Ctrl+q" := "quit"]> ∅) tt.
Proof.
  pose proof (read_config_routes_key_specs Sample.normalize [] Sample.fresh) as H.
  cbn zeta in H. destruct H as (_ & _ & H & _).
  apply (H "@Ctrl-q@" "quit" Sample.fresh). vm_compute. reflexivity.
Defined.

Lemma modifier_spec_strips_every_delimiter_witness :
  PyStr.strip_chars "@"
    (PyStr.replicate_char 2 "@" ++ "Ctrl-q" ++ PyStr.replicate_char 3 "@")
  = "Ctrl-q".
Proof.
  pose proof (modifier_spec_strips_every_delimiter (Base:=unit) Sample.normalize) as H.
  destruct H as (_ & _ & H & _).
  apply (H 2 3 "Ctrl-q"); vm_compute; discriminate.
Defined.

Lemma startchar_intercepted_when_idle_witness :
  _handle_single_key Sample.handle_single_key Sample.colon_key Sample.fresh
  = mkOutcome (Return tt) Sample.fresh [SetCmdText ":"] /\
  status_texts (trace (_handle_single_key Sample.handle_single_key Sample.colon_key Sample.fresh))
  = [":"] /\
  _keystring (self_after (_handle_single_key Sample.handle_single_key Sample.colon_key Sample.fresh))
  = "".
Proof.
  apply (startchar_intercepted_when_idle Sample.handle_single_key Sample.colon_key Sample.fresh).
  - simpl. left. reflexivity.
  - reflexivity.
Defined.

Lemma startchar_falls_through_mid_chain_witness :
  _handle_single_key Sample.handle_single_key Sample.colon_key Sample.typing
  = Sample.handle_single_key Sample.colon_key Sample.typing /\
  status_texts (trace (_handle_single_key Sample.handle_single_key Sample.colon_key Sample.typing))
  = status_texts (trace (Sample.handle_single_key Sample.colon_key Sample.typing)).
Proof.
  apply (startchar_falls_through_mid_chain Sample.handle_single_key Sample.colon_key Sample.typing).
  - simpl. left. reflexivity.
  - simpl. discriminate.
Defined.

(** C9, as stated, fails: after reading an empty section on a parser that
    held a binding for [x], the table is not empty and the lookup of [x]
    does not miss. *)
Lemma read_config_empty_section_keeps_bindings :
  ~ (lookup_plain (self_after (read_config Sample.normalize [] Sample.bound)) "x" = None).
Proof. vm_compute. discriminate. Qed.

Lemma read_config_empty_section_witness :
  (lookup_plain (self_after (read_config Sample.normalize [] Sample.idle)) "gg" = None /\
   lookup_modifier (self_after (read_config Sample.normalize [] Sample.idle)) "gg" = None)
  /\
  command_runs
    (trace
       (for_each [mkKeyEvent 71 0 "g"; mkKeyEvent 71 0 "g"; mkKeyEvent 81 67108864 "q"]
          (_handle_single_key (KeyParser_handle_single_key Sample.run Sample.chord_keystr))
          (self_after (read_config Sample.normalize [] Sample.idle))))
  = [].
Proof.
  pose proof (read_config_empty_section
                Sample.normalize Sample.run Sample.chord_keystr Sample.idle) as H.
  cbn zeta in H. destruct H as (_ & _ & _ & H).
  destruct (H eq_refl eq_refl) as [Hlookup Hkeys]. split.
  - apply Hlookup.
  - apply (Hkeys [mkKeyEvent 71 0 "g"; mkKeyEvent 71 0 "g";
                  mkKeyEvent 81 67108864 "q"]).
Defined.

(** C2, as stated, fails: on a completed keychain the command parser is
    not called with the flag on. *)
Lemma execute_not_run_with_flag_on :
  ~ (command_runs (trace (execute Sample.run "scrollstart" None Sample.fresh))
     = [("scrollstart", None, true)]).
Proof. vm_compute. discriminate. Qed.

Lemma execute_runs_with_flag_off_witness :
  ended (execute Sample.run "nope" None Sample.fresh) = Return tt /\
  status_texts (trace (execute Sample.run "nope" None Sample.fresh)) = [].
Proof.
  pose proof (execute_runs_with_flag_off Sample.run "nope" None Sample.fresh) as H.
  destruct H as (_ & _ & H).
  apply H. reflexivity.
Defined.

(** C3, as stated, fails: with the flag off and an executor that reports
    an unknown command, no error is surfaced. *)
Lemma unknown_command_not_surfaced :
  ~ (Sample.run "nope" None false = Raise NoSuchCommandError ->
     surfaces_error (_run_or_fill Sample.run "nope" None false Sample.fresh) = true).
Proof.
  intros Hclaim. specialize (Hclaim eq_refl).
  vm_compute in Hclaim. discriminate.
Qed.

Lemma unknown_command_swallowed_witness :
  ended (_run_or_fill Sample.run "nope" None false Sample.fresh) = Return tt /\
  surfaces_error (_run_or_fill Sample.run "nope" None false Sample.fresh) = false /\
  status_texts (trace (_run_or_fill Sample.run "nope" None false Sample.fresh)) = [] /\
  self_after (_run_or_fill Sample.run "nope" None false Sample.fresh) = Sample.fresh.
Proof.
  apply (unknown_command_swallowed Sample.run "nope" None false Sample.fresh).
  reflexivity.
Defined.

Lemma argument_count_fills_statusbar_witness :
  status_texts (trace (_run_or_fill Sample.run "open" None false Sample.fresh))
  = [":open "] /\
  ended (_run_or_fill Sample.run "open" None false Sample.fresh) = Return tt /\
  surfaces_error (_run_or_fill Sample.run "open" None false Sample.fresh) = false /\
  self_after (_run_or_fill Sample.run "open" None false Sample.fresh) = Sample.fresh.
Proof.
  apply (argument_count_fills_statusbar Sample.run "open" None false Sample.fresh).
  reflexivity.
Defined.

(** ** Further properties of the dispatch policy *)

Section DispatchMore.

Context {Base : Type}.
Variable run : string -> option Z -> bool -> result bool.

(** X1: [_run_or_fill] writes to the status line exactly when the executor
    reports an argument count mismatch: not when the command ran, not when
    it is unknown, and not when the executor failed otherwise. *)
Theorem run_or_fill_fills_iff_argument_count (cmdstr : string) (count : option Z)
    (ignore_exc : bool) (self : KeyParser Base) :
  status_texts (trace (_run_or_fill run cmdstr count ignore_exc self)) <> [] <->
  run cmdstr count ignore_exc = Raise ArgumentCountError.
Proof.
  rewrite run_or_fill_cases.
  destruct (run cmdstr count ignore_exc) as [b|[| |name]]; cbn; split;
    congruence.
Qed.

(** X2: [_run_or_fill] raises exactly the exceptions of the executor that
    are neither [NoSuchCommandError] nor [ArgumentCountError], and raises
    them unchanged. *)
Theorem run_or_fill_raises_iff_unhandled (cmdstr : string) (count : option Z)
    (ignore_exc : bool) (self : KeyParser Base) (e : exn) :
  ended (_run_or_fill run cmdstr count ignore_exc self) = Raise e <->
  run cmdstr count ignore_exc = Raise e /\
  e <> NoSuchCommandError /\ e <> ArgumentCountError.
Proof.
  rewrite run_or_fill_cases.
  destruct (run cmdstr count ignore_exc) as [b|[| |name]]; cbn; split.
  all: try (intros [= <-]; repeat split; congruence).
  all: try discriminate.
  all: try (intros (Hr & Hn & Ha); congruence).
Qed.

End DispatchMore.

(** ** Further properties of key handling *)

Section KeysMore.

Context {Base : Type}.
Variable super : KeyEvent -> M Base unit.

(** The start characters are the three one-character strings of
    [STARTCHARS]. *)
Lemma is_startchar_iff (txt : string) :
  is_startchar txt = true <-> In txt [":"; "/"; "?"].
Proof.
  unfold is_startchar. cbn [PyStr.chars STARTCHARS String.list_ascii_of_string map existsb].
  rewrite !orb_true_iff, !String.eqb_eq. cbn [In].
  split.
  - intros [->|[->|[->|Hno]]]; auto. discriminate.
  - intros [<-|[<-|[<-|[]]]]; auto.
Qed.

Lemma handle_single_key_intercepts (e : KeyEvent) (self : KeyParser Base) :
  _keystring self = "" ->
  In (PyStr.strip (text e)) [":"; "/"; "?"] ->
  _handle_single_key super e self
  = mkOutcome (Return tt) self [SetCmdText (PyStr.strip (text e))].
Proof.
  intros Hidle Hin. apply is_startchar_iff in Hin.
  by rewrite handle_single_key_cases, Hidle, Hin.
Qed.

(** X4: the interception looks at the text of the event with the
    surrounding whitespace removed.  When the keystring is empty and the
    stripped text is a reserved character, the handler sends the stripped
    text, not the text as typed, to the status line, leaves the parser as it
    was and does not enter the handler of the base class. *)
Theorem startchar_intercepted_after_strip (e : KeyEvent) (self : KeyParser Base) :
  _keystring self = "" ->
  In (PyStr.strip (text e)) [":"; "/"; "?"] ->
  let o := _handle_single_key super e self in
  ended o = Return tt /\
  status_texts (trace o) = [PyStr.strip (text e)] /\
  command_runs (trace o) = [] /\
  self_after o = self.
Proof.
  intros Hidle Hin. cbn zeta.
  by rewrite (handle_single_key_intercepts e self Hidle Hin).
Qed.

(** X5: a key whose stripped text is not a reserved character (no text at
    all, another character, or more than one character) is never
    intercepted, also when the keystring is empty: the handler is the
    handler of the base class. *)
Theorem other_text_goes_to_base_handler (e : KeyEvent) (self : KeyParser Base) :
  ~ In (PyStr.strip (text e)) [":"; "/"; "?"] ->
  _handle_single_key super e self = super e self.
Proof.
  intros Hout. rewrite handle_single_key_cases.
  destruct (is_startchar (PyStr.strip (text e))) eqn:Hs.
  - apply is_startchar_iff in Hs. contradiction.
  - by rewrite andb_false_r.
Qed.

(** X6: reserved keys typed in a row on an empty keystring are all
    intercepted: the status line receives each stripped text in the order
    typed, the parser stays as it was, so the keystring stays empty, and the
    handler of the base class never runs. *)
Theorem startchars_in_a_row (es : list KeyEvent) (self : KeyParser Base) :
  _keystring self = "" ->
  Forall (fun e => In (PyStr.strip (text e)) [":"; "/"; "?"]) es ->
  for_each es (_handle_single_key super) self
  = mkOutcome (Return tt) self (map (fun e => SetCmdText (PyStr.strip (text e))) es).
Proof.
  intros Hidle Hall. induction Hall as [|e es He Hes IH]; [reflexivity|].
  change (for_each (e :: es) (_handle_single_key super) self)
    with (bind (_handle_single_key super e)
            (fun _ => for_each es (_handle_single_key super)) self).
  unfold bind.
  rewrite (handle_single_key_intercepts e self Hidle He).
  cbn [ended self_after trace]. by rewrite IH.
Qed.

End KeysMore.

(** ** Further facts about the assignments of a reload *)

Lemma insert_all_app (l1 l2 : list (string * string)) (d : gmap string string) :
  insert_all (l1 ++ l2) d = insert_all l2 (insert_all l1 d).
Proof. unfold insert_all. apply foldl_app. Qed.

Lemma plain_entries_app (items1 items2 : list (string * string)) :
  plain_entries (items1 ++ items2)
  = (plain_entries items1 ++ plain_entries items2)%list.
Proof. unfold plain_entries. apply filter_app. Qed.

Lemma modifier_entries_app (normalize : string -> string)
    (items1 items2 : list (string * string)) :
  modifier_entries normalize (items1 ++ items2)
  = (modifier_entries normalize items1 ++ modifier_entries normalize items2)%list.
Proof. unfold modifier_entries. by rewrite filter_app, map_app. Qed.

Lemma last_binding_app (l1 l2 : list (string * string)) (k : string) :
  last_binding (l1 ++ l2) k =
  match last_binding l2 k with
  | Some v => Some v
  | None => last_binding l1 k
  end.
Proof.
  induction l1 as [|kv l1 IH]; simpl.
  - by destruct (last_binding l2 k).
  - rewrite IH. by destruct (last_binding l2 k).
Qed.

Lemma last_binding_unbound (l : list (string * string)) (k : string) :
  bound_in l k = false -> last_binding l k = None.
Proof.
  intros Hk. destruct (last_binding l k) as [v|] eqn:Hl; [|reflexivity].
  assert (bound_in l k = true) by (apply last_binding_bound_in; eauto).
  congruence.
Qed.

Lemma register_lines_quiet (normalize : string -> string)
    (items : list (string * string)) :
  warnings (map (register_line normalize) items) = [] /\
  status_texts (map (register_line normalize) items) = [] /\
  command_runs (map (register_line normalize) items) = [].
Proof.
  induction items as [|kv items (Hw & Hs & Hc)]; [done|].
  cbn [map]. unfold register_line at 1 3 5.
  by destruct (is_modifier_spec kv.1).
Qed.

(** ** Further properties of the reload *)

Section ReloadMore.

Context {Base : Type}.
Variable normalize : string -> string.

(** X7: after [read_config] a keystring resolves to the command of the
    last key-spec of the section that gives it, in the order of the section;
    a keystring that no key-spec gives resolves as before the call. *)
Theorem read_config_last_spec_wins (items : list (string * string))
    (self : KeyParser Base) (k : string) :
  let self' := self_after (read_config normalize items self) in
  lookup_plain self' k =
    match last_binding (plain_entries items) k with
    | Some cmd => Some cmd
    | None => lookup_plain self k
    end /\
  lookup_modifier self' k =
    match last_binding (modifier_entries normalize items) k with
    | Some cmd => Some cmd
    | None => lookup_modifier self k
    end.
Proof.
  cbn zeta. rewrite read_config_outcome.
  unfold lookup_plain, lookup_modifier, registered.
  cbn [self_after _bindings _modifier_bindings].
  split; apply lookup_insert_all.
Qed.

(** X8: a key-spec whose keystring no later key-spec of the section gives
    again is bound to its command after [read_config], whatever the tables
    held before and whatever comes earlier in the section: an unwrapped
    key-spec in the plain table under the key-spec itself, a wrapped one in
    the modifier table under its stripped and normalised text. *)
Theorem read_config_binds_unrepeated_spec (before after : list (string * string))
    (k cmd : string) (self : KeyParser Base) :
  let self' := self_after (read_config normalize (before ++ (k, cmd) :: after) self) in
  (is_wrapped k = false -> plain_spec_of after k = false ->
   lookup_plain self' k = Some cmd) /\
  (is_wrapped k = true ->
   modifier_spec_of normalize after (normalize (PyStr.strip_chars "@" k)) = false ->
   lookup_modifier self' (normalize (PyStr.strip_chars "@" k)) = Some cmd).
Proof.
  cbn zeta. rewrite read_config_outcome.
  unfold lookup_plain, lookup_modifier, plain_spec_of, modifier_spec_of, registered.
  cbn [self_after _bindings _modifier_bindings].
  split; intros Hk Hafter; rewrite lookup_insert_all.
  - rewrite plain_entries_app, plain_entries_cons, last_binding_app. cbn [fst].
    rewrite Hk. cbn [last_binding fst snd].
    rewrite (last_binding_unbound _ _ Hafter). by rewrite String.eqb_refl.
  - rewrite modifier_entries_app, modifier_entries_cons, last_binding_app. cbn [fst].
    rewrite Hk. cbn [last_binding fst snd].
    rewrite (last_binding_unbound _ _ Hafter). by rewrite String.eqb_refl.
Qed.

(** X9: reloads accumulate.  Reading one section and then another leaves
    the parser as reading the first section followed by the second in one
    call does. *)
Theorem read_config_accumulates (items1 items2 : list (string * string))
    (self : KeyParser Base) :
  self_after (read_config normalize items2
                (self_after (read_config normalize items1 self)))
  = self_after (read_config normalize (items1 ++ items2) self).
Proof.
  rewrite !read_config_outcome. cbn [self_after]. unfold registered.
  cbn [_keystring _bindings _modifier_bindings _base].
  by rewrite plain_entries_app, modifier_entries_app, !insert_all_app.
Qed.

(** X10: [read_config] never raises, sends nothing to the status line,
    runs no command, and touches nothing but the two tables: the keystring
    typed so far and the rest of the state of the base class are as before,
    so a keychain in progress survives a reload. *)
Theorem read_config_frame (items : list (string * string)) (self : KeyParser Base) :
  let o := read_config normalize items self in
  ended o = Return tt /\
  _keystring (self_after o) = _keystring self /\
  _base (self_after o) = _base self /\
  status_texts (trace o) = [] /\
  command_runs (trace o) = [].
Proof.
  cbn zeta. rewrite read_config_outcome. cbn [ended self_after trace].
  destruct (register_lines_quiet normalize items) as (_ & Hs & Hc).
  destruct items as [|kv items]; by repeat split.
Qed.

(** X11: the warning of [read_config] depends on the section alone: it is
    logged exactly when the section has no item, whatever the tables hold
    before or after the call. *)
Theorem read_config_warns_iff_empty_section (items : list (string * string))
    (self : KeyParser Base) :
  warnings (trace (read_config normalize items self)) <> [] <-> items = [].
Proof.
  rewrite read_config_outcome. cbn [trace].
  destruct (register_lines_quiet normalize items) as (Hw & _ & _).
  destruct items as [|kv items]; [done|].
  rewrite Hw. split; [done | discriminate].
Qed.

End ReloadMore.

(** ** The order of a section and the delimiters of a key-spec *)

(** The assignments of a list, seen as one dictionary laid over the old
    one: the entries in reverse, so that the last assignment to a key is the
    one that counts. *)
Lemma insert_all_list_to_map (l : list (string * string)) (d : gmap string string) :
  insert_all l d = list_to_map (reverse l) ∪ d.
Proof.
  revert d. induction l as [|[k v] l IH]; intros d.
  - cbn. by rewrite (left_id_L ∅ (∪)).
  - rewrite insert_all_cons, IH, reverse_cons, list_to_map_app. cbn [fst snd].
    rewrite <- (assoc_L (∪)). f_equal.
    cbn. by rewrite insert_empty, <- insert_union_singleton_l.
Qed.

Lemma insert_all_permutation (l l' : list (string * string)) (d : gmap string string) :
  l ≡ₚ l' -> NoDup (map fst l) -> insert_all l d = insert_all l' d.
Proof.
  intros Hperm Hnodup. rewrite !insert_all_list_to_map. f_equal.
  apply list_to_map_proper.
  - change (NoDup ((reverse l).*1)). rewrite fmap_reverse, reverse_Permutation.
    exact Hnodup.
  - by rewrite !reverse_Permutation.
Qed.

Lemma plain_entries_permutation (items items' : list (string * string)) :
  items ≡ₚ items' -> plain_entries items ≡ₚ plain_entries items'.
Proof. intros Hperm. unfold plain_entries. by rewrite Hperm. Qed.

Lemma modifier_entries_permutation (normalize : string -> string)
    (items items' : list (string * string)) :
  items ≡ₚ items' ->
  modifier_entries normalize items ≡ₚ modifier_entries normalize items'.
Proof.
  intros Hperm. unfold modifier_entries.
  apply Permutation_map. by rewrite Hperm.
Qed.

Lemma string_app_assoc (a b c : string) : (a ++ b) ++ c = a ++ (b ++ c).
Proof.
  induction a as [|x a IH]; [reflexivity|].
  change (String x ((a ++ b) ++ c) = String x (a ++ (b ++ c))). by f_equal.
Qed.

Lemma replicate_char_snoc (n : nat) (c : ascii) :
  PyStr.replicate_char n c ++ String c "" = PyStr.replicate_char (S n) c.
Proof.
  induction n as [|n IH]; [reflexivity|].
  change (String c (PyStr.replicate_char n c ++ String c "")
          = String c (PyStr.replicate_char (S n) c)).
  by f_equal.
Qed.

(** What [lstrip] of the delimiter takes away is a run of delimiters, and
    what it leaves does not start with one. *)
Lemma lstrip_at_decompose (s : string) :
  exists m,
    s = PyStr.replicate_char m "@" ++ PyStr.lstrip_by (PyStr.char_in "@") s /\
    PyStr.first_char (PyStr.lstrip_by (PyStr.char_in "@") s) <> Some "@"%char.
Proof.
  induction s as [|c s (m & Hs & Hf)].
  - exists 0. by split.
  - cbn [PyStr.lstrip_by]. rewrite char_in_at.
    destruct (Ascii.eqb_spec c "@") as [->|Hne].
    + exists (S m). split; [|exact Hf].
      change (String "@" s
              = String "@" (PyStr.replicate_char m "@"
                            ++ PyStr.lstrip_by (PyStr.char_in "@") s)).
      by f_equal.
    + exists 0. split; [reflexivity|].
      unfold PyStr.first_char. cbn [String.get]. congruence.
Qed.

(** What [rstrip] of the delimiter takes away is a run of delimiters, and
    what it leaves does not end with one. *)
Lemma rstrip_at_decompose (s : string) :
  exists n,
    s = PyStr.rstrip_by (PyStr.char_in "@") s ++ PyStr.replicate_char n "@" /\
    PyStr.last_char (PyStr.rstrip_by (PyStr.char_in "@") s) <> Some "@"%char.
Proof.
  induction s as [|c s (n & Hs & Hl)].
  - exists 0. by split.
  - cbn [PyStr.rstrip_by].
    destruct (PyStr.rstrip_by (PyStr.char_in "@") s) as [|d r] eqn:Hr.
    + rewrite char_in_at. destruct (Ascii.eqb_spec c "@") as [->|Hne].
      * exists (S n). split; [|done].
        change (String "@" s = String "@" (PyStr.replicate_char n "@")).
        by f_equal.
      * exists n. split; [|cbn [PyStr.last_char]; congruence].
        change (String c s = String c (PyStr.replicate_char n "@")).
        by f_equal.
    + exists n. split.
      * change (String c (String d r) ++ PyStr.replicate_char n "@")
          with (String c (String d r ++ PyStr.replicate_char n "@")).
        by rewrite <- Hs.
      * exact Hl.
Qed.

Lemma rstrip_by_first_char (p : ascii -> bool) (s : string) :
  PyStr.first_char (PyStr.rstrip_by p s) = None \/
  PyStr.first_char (PyStr.rstrip_by p s) = PyStr.first_char s.
Proof.
  destruct s as [|c s]; [by left|].
  cbn [PyStr.rstrip_by].
  destruct (PyStr.rstrip_by p s); [destruct (p c)|]; by auto.
Qed.

Section Delimiters.

Context {Base : Type}.
Variable normalize : string -> string.

(** X12: when no two key-specs of a section give the same keystring of the
    plain table, nor of the modifier table, the order of the items does not
    matter: [read_config] on any rearrangement of the section leaves the
    same parser. *)
Theorem read_config_order_irrelevant (items items' : list (string * string))
    (self : KeyParser Base) :
  items ≡ₚ items' ->
  NoDup (map fst (plain_entries items)) ->
  NoDup (map fst (modifier_entries normalize items)) ->
  self_after (read_config normalize items self)
  = self_after (read_config normalize items' self).
Proof.
  intros Hperm Hplain Hmod. rewrite !read_config_outcome. cbn [self_after].
  unfold registered.
  rewrite (insert_all_permutation (plain_entries items) (plain_entries items'))
    by (by try apply plain_entries_permutation).
  by rewrite (insert_all_permutation (modifier_entries normalize items)
                (modifier_entries normalize items'))
    by (by try apply modifier_entries_permutation).
Qed.

Lemma strip_chars_at_split (k : string) :
  exists m n,
    k = PyStr.replicate_char m "@" ++ PyStr.strip_chars "@" k
        ++ PyStr.replicate_char n "@" /\
    PyStr.first_char (PyStr.strip_chars "@" k) <> Some "@"%char /\
    PyStr.last_char (PyStr.strip_chars "@" k) <> Some "@"%char.
Proof.
  unfold PyStr.strip_chars, PyStr.strip_by.
  destruct (lstrip_at_decompose k) as (m & Hk & Hf).
  destruct (rstrip_at_decompose (PyStr.lstrip_by (PyStr.char_in "@") k))
    as (n & Hl & Hlast).
  exists m, n. split; [|split; [|exact Hlast]].
  - by rewrite <- Hl.
  - destruct (rstrip_by_first_char (PyStr.char_in "@")
                (PyStr.lstrip_by (PyStr.char_in "@") k)) as [Hn|Hsame].
    + rewrite Hn. discriminate.
    + by rewrite Hsame.
Qed.

(** X13: [strip('@')] takes a run of delimiters off each end and nothing
    else: every key-spec is a run of delimiters, the stripped text, and a
    run of delimiters; the stripped text, which is what the normaliser is
    given, neither starts nor ends with the delimiter, so stripping it again
    changes nothing.  Delimiters inside the key-spec stay. *)
Theorem strip_chars_at_decompose (k : string) :
  (exists m n,
     k = PyStr.replicate_char m "@" ++ PyStr.strip_chars "@" k
         ++ PyStr.replicate_char n "@") /\
  PyStr.first_char (PyStr.strip_chars "@" k) <> Some "@"%char /\
  PyStr.last_char (PyStr.strip_chars "@" k) <> Some "@"%char /\
  PyStr.strip_chars "@" (PyStr.strip_chars "@" k) = PyStr.strip_chars "@" k.
Proof.
  destruct (strip_chars_at_split k) as (m & n & Hk & Hf & Hl).
  split; [by exists m, n|]. split; [exact Hf|]. split; [exact Hl|].
  pose proof (strip_chars_at_runs 0 0 (PyStr.strip_chars "@" k) Hf Hl) as Hs.
  cbn [PyStr.replicate_char] in Hs.
  replace (PyStr.strip_chars "@" k ++ "") with (PyStr.strip_chars "@" k) in Hs.
  - exact Hs.
  - generalize (PyStr.strip_chars "@" k). intros t.
    induction t as [|c t IH]; [reflexivity|].
    change (String c t = String c (t ++ "")). by f_equal.
Qed.

Lemma strip_chars_at_rewrap (k : string) :
  PyStr.strip_chars "@" ("@" ++ k ++ "@") = PyStr.strip_chars "@" k.
Proof.
  destruct (strip_chars_at_split k) as (m & n & Hk & Hf & Hl).
  remember (PyStr.strip_chars "@" k) as core eqn:Hcore. clear Hcore.
  subst k.
  replace ("@" ++ (PyStr.replicate_char m "@" ++ core ++ PyStr.replicate_char n "@")
           ++ "@")
    with (PyStr.replicate_char (S m) "@" ++ core ++ PyStr.replicate_char (S n) "@").
  - by apply strip_chars_at_runs.
  - rewrite <- (replicate_char_snoc n).
    change (String "@" (PyStr.replicate_char m "@"
                        ++ core ++ PyStr.replicate_char n "@" ++ "@")
            = String "@" ((PyStr.replicate_char m "@"
                           ++ core ++ PyStr.replicate_char n "@") ++ "@")).
    f_equal. by rewrite !string_app_assoc.
Qed.

(** X14: delimiters added around a wrapped key-spec change nothing: the
    key-spec wrapped once more is registered as the same modifier binding,
    so the reload leaves the same parser. *)
Theorem read_config_absorbs_extra_delimiters (k cmd : string) (self : KeyParser Base) :
  is_wrapped k = true ->
  self_after (read_config normalize [("@" ++ k ++ "@", cmd)] self)
  = self_after (read_config normalize [(k, cmd)] self).
Proof.
  intros Hk.
  assert (is_wrapped ("@" ++ k ++ "@") = true) as Hk'.
  { apply is_wrapped_chars. split; [reflexivity|].
    apply endswith_at. clear Hk.
    change ("@" ++ k ++ "@") with (String "@" (k ++ "@")).
    assert (PyStr.endswith "@" (k ++ "@") = true) as He.
    { induction k as [|c k IH]; [reflexivity|].
      change (String c k ++ "@") with (String c (k ++ "@")).
      cbn [PyStr.endswith]. rewrite IH. apply orb_true_r. }
    cbn [PyStr.endswith]. rewrite He. apply orb_true_r. }
  rewrite !read_config_outcome. cbn [self_after]. unfold registered.
  rewrite !plain_entries_cons, !modifier_entries_cons. cbn [fst snd].
  by rewrite Hk, Hk', strip_chars_at_rewrap.
Qed.

Lemma registered_twice (items : list (string * string)) (self : KeyParser Base) :
  registered normalize items (registered normalize items self)
  = registered normalize items self.
Proof.
  unfold registered. cbn [_keystring _bindings _modifier_bindings _base].
  by rewrite !insert_all_twice.
Qed.

(** X15: a series of change notifications, the configuration being the
    same throughout, leaves the parser as a single [read_config] does when
    at least one of them names the section [keybind], whatever the options
    and however many do; when none does, the parser is untouched and
    nothing is logged.  No notification makes the handler raise. *)
Theorem on_config_changed_burst (notes : list (string * string))
    (items : list (string * string)) (self : KeyParser Base) :
  let o := for_each notes (fun n => on_config_changed normalize n.1 n.2 items) self in
  ended o = Return tt /\
  self_after o =
    (if existsb (fun n => String.eqb n.1 "keybind") notes
     then self_after (read_config normalize items self)
     else self) /\
  (existsb (fun n => String.eqb n.1 "keybind") notes = false -> trace o = []).
Proof.
  cbn zeta. rewrite read_config_outcome. cbn [self_after].
  revert self. induction notes as [|[sec opt] notes IH]; intros self; [done|].
  change (for_each ((sec, opt) :: notes)
            (fun n => on_config_changed normalize n.1 n.2 items) self)
    with (bind (on_config_changed normalize sec opt items)
            (fun _ => for_each notes
                        (fun n => on_config_changed normalize n.1 n.2 items))
            self).
  set (f := fun n : string * string => on_config_changed normalize n.1 n.2 items) in *.
  unfold bind, on_config_changed. cbn [existsb fst].
  destruct (String.eqb sec "keybind").
  - rewrite read_config_outcome. cbn [ended self_after trace orb].
    destruct (IH (registered normalize items self)) as (He & Hs & _).
    split; [exact He|]. split; [|discriminate].
    rewrite Hs, registered_twice.
    by destruct (existsb (fun n => String.eqb n.1 "keybind") notes).
  - change (@ret Base unit tt self) with (mkOutcome (Return tt) self (@nil event)).
    cbn [ended self_after trace orb app].
    exact (IH self).
Qed.

End Delimiters.

(** ** The further properties at concrete inputs *)

Lemma startchar_intercepted_after_strip_witness :
  ended (_handle_single_key Sample.handle_single_key (mkKeyEvent 58 0 ": ") Sample.fresh)
  = Return tt /\
  status_texts
    (trace (_handle_single_key Sample.handle_single_key (mkKeyEvent 58 0 ": ") Sample.fresh))
  = [":"] /\
  command_runs
    (trace (_handle_single_key Sample.handle_single_key (mkKeyEvent 58 0 ": ") Sample.fresh))
  = [] /\
  self_after (_handle_single_key Sample.handle_single_key (mkKeyEvent 58 0 ": ") Sample.fresh)
  = Sample.fresh.
Proof.
  apply (startchar_intercepted_after_strip Sample.handle_single_key
           (mkKeyEvent 58 0 ": ") Sample.fresh).
  - reflexivity.
  - simpl. left. reflexivity.
Defined.

Lemma other_text_goes_to_base_handler_witness :
  _handle_single_key Sample.handle_single_key (mkKeyEvent 71 0 "g") Sample.fresh
  = Sample.handle_single_key (mkKeyEvent 71 0 "g") Sample.fresh.
Proof.
  apply (other_text_goes_to_base_handler Sample.handle_single_key
           (mkKeyEvent 71 0 "g") Sample.fresh).
  simpl. intros [H|[H|[H|[]]]]; discriminate H.
Defined.

Lemma startchars_in_a_row_witness :
  for_each [Sample.colon_key; mkKeyEvent 47 0 "/"]
    (_handle_single_key Sample.handle_single_key) Sample.fresh
  = mkOutcome (Return tt) Sample.fresh [SetCmdText ":"; SetCmdText "/"].
Proof.
  apply (startchars_in_a_row Sample.handle_single_key
           [Sample.colon_key; mkKeyEvent 47 0 "/"] Sample.fresh).
  - reflexivity.
  - constructor; [vm_compute; auto|].
    constructor; [vm_compute; auto|]. constructor.
Defined.

Lemma read_config_binds_unrepeated_spec_witness :
  lookup_plain
    (self_after
       (read_config Sample.normalize
          ([("gg", "scrollend")] ++ ("gg", "scrollstart") :: [("@Ctrl-q@", "quit")])
          Sample.bound))
    "gg"
  = Some "scrollstart".
Proof.
  pose proof (read_config_binds_unrepeated_spec Sample.normalize
                [("gg", "scrollend")] [("@Ctrl-q@", "quit")]
                "gg" "scrollstart" Sample.bound) as H.
  cbn zeta in H. destruct H as [H _].
  apply H; vm_compute; reflexivity.
Defined.

Lemma read_config_order_irrelevant_witness :
  self_after (read_config Sample.normalize
                [("gg", "scrollstart"); ("x", "quit"); ("@Ctrl-q@", "quit")]
                Sample.fresh)
  = self_after (read_config Sample.normalize
                  [("@Ctrl-q@", "quit"); ("x", "quit"); ("gg", "scrollstart")]
                  Sample.fresh).
Proof.
  apply (read_config_order_irrelevant Sample.normalize
           [("gg", "scrollstart"); ("x", "quit"); ("@Ctrl-q@", "quit")]
           [("@Ctrl-q@", "quit"); ("x", "quit"); ("gg", "scrollstart")]
           Sample.fresh).
  - apply (bool_decide_unpack _). vm_compute. exact I.
  - apply (bool_decide_unpack _). vm_compute. exact I.
  - apply (bool_decide_unpack _). vm_compute. exact I.
Defined.

Lemma read_config_absorbs_extra_delimiters_witness :
  self_after (read_config Sample.normalize [("@" ++ "@Ctrl-q@" ++ "@", "quit")] Sample.fresh)
  = self_after (read_config Sample.normalize [("@Ctrl-q@", "quit")] Sample.fresh).
Proof.
  apply (read_config_absorbs_extra_delimiters Sample.normalize
           "@Ctrl-q@" "quit" Sample.fresh).
  reflexivity.
Defined.

Lemma on_config_changed_burst_witness :
  trace (for_each [("colors", "statusbar.bg"); ("general", "editor")]
           (fun n => on_config_changed Sample.normalize n.1 n.2 Sample.docstring_items)
           Sample.bound)
  = [].
Proof.
  pose proof (on_config_changed_burst Sample.normalize
                [("colors", "statusbar.bg"); ("general", "editor")]
                Sample.docstring_items Sample.bound) as H.
  cbn zeta in H. destruct H as (_ & _ & H). apply H. reflexivity.
Defined.

(** With a binding for [gg], the accumulator of the base class dispatches
    on the second [g], with the count typed before. *)
Example accumulator_dispatches_on_match :
  command_runs
    (trace
       (for_each [mkKeyEvent 51 0 "3"; mkKeyEvent 71 0 "g"; mkKeyEvent 71 0 "g"]
          (_handle_single_key (KeyParser_handle_single_key Sample.run Sample.chord_keystr))
          (self_after (read_config Sample.normalize Sample.docstring_items Sample.idle))))
  = [("scrollstart", Some 3%Z, false)].
Proof. vm_compute. reflexivity. Qed.
